(** * use-free-scale: the transform controller of [src/hooks/use-free-scale.ts]

    A shallow embedding of the React hook [useFreeScale] and the properties
    its specification states about it.

    Numbers are JavaScript numbers, that is IEEE 754 binary64 values: they are
    modelled by Rocq's primitive [float], whose [+], [-], [*], [/] and
    comparisons are the binary64 operations with round-to-nearest-even.
    Equality [=] on [float] is equality of the values as data (one NaN,
    [+0] distinct from [-0]); the JavaScript operator [===] is [=?]. *)

From Stdlib Require Import Floats ZArith Bool List String Ascii Lia DecimalString.
Import ListNotations.

#[local] Set Warnings "-inexact-float".
#[local] Open Scope float_scope.

(** ** Numbers in template literals

    A template literal turns a number into text with Number::toString of the
    language: the shortest decimal digits that read back as the same binary64
    value, laid out in positional notation when the decimal point falls
    between 10^-6 and 10^21 and in exponent notation otherwise. *)

Module JSNumber.

#[local] Open Scope string_scope.
#[local] Open Scope Z_scope.

(** [cmp_scaled a p b q] compares [a * 10^p] with [b * 2^q]. *)
Definition cmp_scaled (a p b q : Z) : comparison :=
  (a * 10 ^ Z.max p 0 * 2 ^ Z.max (- q) 0
     ?= b * 2 ^ Z.max q 0 * 10 ^ Z.max (- p) 0).

(** The least [n], counting up from [n0], with [m * 2^e < 10^n]. *)
Fixpoint magnitude (fuel : nat) (n0 m e : Z) : Z :=
  match fuel with
  | O => n0
  | S fuel' =>
      match cmp_scaled 1 n0 m e with
      | Gt => n0
      | _ => magnitude fuel' (n0 + 1) m e
      end
  end.

(** Does [s * 10^p] round to the binary64 value [m * 2^e]?  The reals that
    round to it lie between the midpoints to its two neighbours; a midpoint
    itself rounds to it when [m] is even. *)
Definition rounds_to (s p : Z) (m e : Z) : bool :=
  let below := if (m =? 2 ^ 52) && (-1074 <? e) then 1 else 2 in
  let lo := cmp_scaled s p (4 * m - below) (e - 2) in
  let hi := cmp_scaled s p (4 * m + 2) (e - 2) in
  match lo, hi with
  | Gt, Lt => true
  | Eq, _ | _, Eq => Z.even m
  | _, _ => false
  end.

(** The candidates with [k] digits: the two multiples of [10^(n-k)] around
    [m * 2^e]; the result is [(s, n)]. *)
Definition candidate (k n m e : Z) : option (Z * Z) :=
  let p := n - k in
  let s := (m * 2 ^ Z.max e 0 * 10 ^ Z.max (- p) 0)
           / (2 ^ Z.max (- e) 0 * 10 ^ Z.max p 0) in
  let up := if s + 1 =? 10 ^ k then (10 ^ (k - 1), n + 1) else (s + 1, n) in
  match rounds_to s p m e, rounds_to (s + 1) p m e with
  | true, false => Some (s, n)
  | false, true => Some up
  | true, true =>
      match cmp_scaled (2 * s + 1) p (2 * m) e with
      | Gt => Some (s, n)
      | Lt => Some up
      | Eq => if Z.even s then Some (s, n) else Some up
      end
  | false, false => None
  end.

(** The shortest digit string: the least [k >= 1] that has a candidate.
    Seventeen digits tell any two binary64 values apart, so the search ends
    within its fuel. *)
Fixpoint shortest (fuel : nat) (k n m e : Z) : Z * Z * Z :=
  match fuel with
  | O => (m, k, n)
  | S fuel' =>
      match candidate k n m e with
      | Some (s, n') => (s, k, n')
      | None => shortest fuel' (k + 1) n m e
      end
  end.

Definition digits (s : Z) : string :=
  NilZero.string_of_uint (N.to_uint (Z.to_N s)).

Fixpoint zeros (n : nat) : string :=
  match n with
  | O => EmptyString
  | S n' => String "0" (zeros n')
  end.

(** Steps 6 and 7 of Number::toString: the layout of the digits [s] ([k] of
    them) with the decimal point after the [n]-th. *)
Definition layout (s k n : Z) : string :=
  let d := digits s in
  if (-5 <=? n) && (n <=? 21) then
    if k <=? n then d ++ zeros (Z.to_nat (n - k))
    else if 0 <? n then
      substring 0 (Z.to_nat n) d ++ "." ++ substring (Z.to_nat n) (Z.to_nat (k - n)) d
    else "0." ++ zeros (Z.to_nat (- n)) ++ d
  else
    let ex := n - 1 in
    let sign := if ex <? 0 then "-" else "+" in
    let mant := if k =? 1 then d
                else substring 0 1 d ++ "." ++ substring 1 (Z.to_nat (k - 1)) d in
    mant ++ "e" ++ sign ++ digits (Z.abs ex).

(** Number::toString(x) with radix 10: what a template literal applies to
    a number.  [shortest] yields the integers n, k, s of its step 5. *)
Definition toString (x : float) : string :=
  match Prim2SF x with
  | S754_nan => "NaN"
  | S754_zero _ => "0"
  | S754_infinity sg => if sg then "-Infinity" else "Infinity"
  | S754_finite sg m e =>
      let n := magnitude 640 (-324) (Zpos m) e in
      let '(s, k, n') := shortest 17 1 n (Zpos m) e in
      (if sg then "-" else "") ++ layout s k n'
  end.

End JSNumber.

(** ** Data model *)

Definition number := float.

(** [const defaultScaleStep = 0.1]. *)
Definition defaultScaleStep : number := 0.1.

(** [interface ITransRes]. *)
Record ITransRes := mkTransRes {
  transXY : number * number;
  scale : number;
  rotate : number
}.

(** The part of a [DOMRect] the hook reads. *)
Record DOMRect := mkRect {
  left : number;
  top : number;
  width : number;
  height : number
}.

(** [type IDomRect = Pick<DOMRect, "height" | "width"> | undefined]: the
    object kept is the [DOMRect] itself, [None] is [undefined]. *)
Definition IDomRect := option DOMRect.

(** [interface IRectData]. *)
Record IRectData := mkRectData {
  originConatinerRect : IDomRect;
  originChildRect : IDomRect
}.

(** [enum IAction]. *)
Inductive IAction := MOVE | SCALE.

(** The type of the [customTrans] option. *)
Definition CustomTrans :=
  ITransRes -> ITransRes -> IRectData -> IAction -> ITransRes.

(** The default of [customTrans]: [(_prev, v) => v]. *)
Definition defaultCustomTrans : CustomTrans := fun _prev v _ _ => v.

(** The fields of a [MouseEvent] and of a [WheelEvent] the handlers read. *)
Record MouseEvent := mkMouse {
  clientX : number;
  clientY : number
}.

(** [WheelEvent] extends [MouseEvent]. *)
Record WheelEvent := mkWheel {
  asMouseEvent : MouseEvent;
  deltaY : number
}.

(** The document as the hook sees it at the time of an event: what
    [containerRef.current] and [childRef.current] hold, each element given by
    the rectangle its [getBoundingClientRect()] returns at that time; [None]
    is a [null] ref (element not mounted). *)
Record Dom := mkDom {
  containerRef : option DOMRect;
  childRef : option DOMRect
}.

(** The hook instance: the three React state cells ([useState]) and the five
    mutable refs ([useRef]). *)
Record Hook := mkHook {
  st_transXY : number * number;
  st_scale : number;
  st_rotate : number;
  transformConfigRef : ITransRes;
  mousedownLock : bool;
  mouseXY : number * number;
  containerRectRef : IDomRect;
  childRectRef : IDomRect
}.

(** [useState([0, 0])], [useState(1)], [useState(0)] and the initial values
    of the refs: the hook as it is after its first render. *)
Definition initialHook : Hook :=
  {| st_transXY := (0, 0);
     st_scale := 1;
     st_rotate := 0;
     transformConfigRef := {| transXY := (0, 0); scale := 1; rotate := 0 |};
     mousedownLock := false;
     mouseXY := (0, 0);
     containerRectRef := None;
     childRectRef := None |}.

(** Field updates of the hook instance. *)
Definition with_lock (h : Hook) (b : bool) : Hook :=
  mkHook (st_transXY h) (st_scale h) (st_rotate h) (transformConfigRef h)
         b (mouseXY h) (containerRectRef h) (childRectRef h).

Definition with_mouseXY (h : Hook) (p : number * number) : Hook :=
  mkHook (st_transXY h) (st_scale h) (st_rotate h) (transformConfigRef h)
         (mousedownLock h) p (containerRectRef h) (childRectRef h).

Definition with_rects (h : Hook) (c k : IDomRect) : Hook :=
  mkHook (st_transXY h) (st_scale h) (st_rotate h) (transformConfigRef h)
         (mousedownLock h) (mouseXY h) c k.

(** The setters returned by [useState]; the hook also hands them to its caller. *)
Definition setTransXY (h : Hook) (v : number * number) : Hook :=
  mkHook v (st_scale h) (st_rotate h) (transformConfigRef h)
         (mousedownLock h) (mouseXY h) (containerRectRef h) (childRectRef h).

Definition setScale (h : Hook) (v : number) : Hook :=
  mkHook (st_transXY h) v (st_rotate h) (transformConfigRef h)
         (mousedownLock h) (mouseXY h) (containerRectRef h) (childRectRef h).

Definition setRotate (h : Hook) (v : number) : Hook :=
  mkHook (st_transXY h) (st_scale h) v (transformConfigRef h)
         (mousedownLock h) (mouseXY h) (containerRectRef h) (childRectRef h).

(** The transform state held in the three state cells. *)
Definition stateOf (h : Hook) : ITransRes :=
  {| transXY := st_transXY h; scale := st_scale h; rotate := st_rotate h |}.

(** A render of the component runs the body of the hook again:
    [transformConfigRef.current = { transXY, scale, rotate }]. *)
Definition render (h : Hook) : Hook :=
  mkHook (st_transXY h) (st_scale h) (st_rotate h) (stateOf h)
         (mousedownLock h) (mouseXY h) (containerRectRef h) (childRectRef h).

(** [a || b] on values that are an object or [undefined]. *)
Definition orElse {A} (a b : option A) : option A :=
  match a with
  | Some x => Some x
  | None => b
  end.

(** [getOriginRect]: the cached rectangle if there is one, else the
    rectangle read from the element ([?.] gives [undefined] on a null ref);
    what was obtained is stored back in the cache. *)
Definition getOriginRect (h : Hook) (dom : Dom) : Hook * IRectData :=
  let originConatinerRect := orElse (containerRectRef h) (containerRef dom) in
  let h1 := with_rects h originConatinerRect (childRectRef h) in
  let originChildRect := orElse (childRectRef h1) (childRef dom) in
  let h2 := with_rects h1 (containerRectRef h1) originChildRect in
  (h2, {| originConatinerRect := originConatinerRect;
          originChildRect := originChildRect |}).

(** [e.deltaY > 0 ? -1 : 1]. *)
Definition direc (e : WheelEvent) : number :=
  if 0 <? deltaY e then -1 else 1.

(** [handleMouseDown] and [handleMouseUp]. *)
Definition handleMouseDown (h : Hook) (e : MouseEvent) : Hook :=
  with_mouseXY (with_lock h true) (clientX e, clientY e).

Definition handleMouseUp (h : Hook) : Hook :=
  with_lock h false.

(** What can happen to a mounted hook.  The two effects attach [handleGesture]
    to the container ("wheel"), [handleMouseDown] to the child ("mousedown"),
    [handleMove] and [handleMouseUp] to the document ("mousemove",
    "mouseup"); one of these four listeners runs, or the caller uses one of
    the setters the hook returns. *)
Inductive Event :=
| MouseDownEv (e : MouseEvent)
| MouseMoveEv (e : MouseEvent)
| MouseUpEv
| WheelEv (e : WheelEvent)
| SetTransXYEv (v : number * number)
| SetScaleEv (v : number)
| SetRotateEv (v : number).

(** The [transform] string, recomputed from the three state cells. *)
Definition transform (h : Hook) : string :=
  ("translateX(" ++ JSNumber.toString (fst (st_transXY h)) ++ "px) translateY("
   ++ JSNumber.toString (snd (st_transXY h)) ++ "px) rotate("
   ++ JSNumber.toString (st_rotate h) ++ "deg) scale("
   ++ JSNumber.toString (st_scale h) ++ ")")%string.

Section UseFreeScale.

(** The options of the hook. *)
Variable scaleStep : number.
Variable customTrans : CustomTrans.

(** [handleMove]. [e.preventDefault()] acts on the event only and is left
    out. *)
Definition handleMove (h : Hook) (dom : Dom) (e : MouseEvent) : Hook :=
  if negb (mousedownLock h) then h
  else
    let transXY_ := transXY (transformConfigRef h) in
    let deltaXY := (clientX e - fst (mouseXY h), clientY e - snd (mouseXY h)) in
    let h1 := with_mouseXY h (clientX e, clientY e) in
    let prev := transformConfigRef h1 in
    let v := {| transXY := (fst transXY_ + fst deltaXY, snd transXY_ + snd deltaXY);
                scale := scale prev;
                rotate := rotate prev |} in
    let '(h2, rect) := getOriginRect h1 dom in
    let customTransRes := customTrans prev v rect MOVE in
    setTransXY h2 (transXY customTransRes).

(** The state [handleGesture] hands to [customTrans] as the second
    argument, given the rectangle of the child. *)
Definition gestureProposal (cur : ITransRes) (childRect : DOMRect)
    (e : WheelEvent) : ITransRes :=
  let childCenter := (left childRect + width childRect / 2,
                      top childRect + height childRect / 2) in
  let targetPoint := (clientX (asMouseEvent e), clientY (asMouseEvent e)) in
  let deltaOffset :=
    ((fst targetPoint - fst childCenter) * direc e / scale cur * scaleStep,
     (snd targetPoint - snd childCenter) * direc e / scale cur * scaleStep) in
  {| transXY := (fst (transXY cur) - fst deltaOffset,
                 snd (transXY cur) - snd deltaOffset);
     scale := scale cur + direc e * scaleStep;
     rotate := rotate cur |}.

(** [handleGesture], the wheel listener. *)
Definition handleGesture (h : Hook) (dom : Dom) (e : WheelEvent) : Hook :=
  if deltaY e =? 0 then h
  else if mousedownLock h then h
  else
    match containerRef dom, childRef dom with
    | Some _, Some childRect =>
        let prev := transformConfigRef h in
        let v := gestureProposal prev childRect e in
        let '(h1, rect) := getOriginRect h dom in
        let customTransRes := customTrans prev v rect SCALE in
        setRotate
          (setTransXY (setScale h1 (scale customTransRes))
                      (transXY customTransRes))
          (rotate customTransRes)
    | _, _ => h
    end.

Definition handle (h : Hook) (dom : Dom) (ev : Event) : Hook :=
  match ev with
  | MouseDownEv e => handleMouseDown h e
  | MouseMoveEv e => handleMove h dom e
  | MouseUpEv => handleMouseUp h
  | WheelEv e => handleGesture h dom e
  | SetTransXYEv v => setTransXY h v
  | SetScaleEv v => setScale h v
  | SetRotateEv v => setRotate h v
  end.

(** One turn of the event loop: the event is handled, then the component
    renders with the state the handler has set, so that the next event
    finds the committed state in [transformConfigRef.current].  The handlers
    read the state through that ref only; a handler that ran before the
    render would still see the state of the render before. *)
Definition dispatch (h : Hook) (dom : Dom) (ev : Event) : Hook :=
  render (handle h dom ev).

(** A run: events in delivery order, each with the document as it is then. *)
Fixpoint run (h : Hook) (evs : list (Dom * Event)) : Hook :=
  match evs with
  | [] => h
  | (dom, ev) :: rest => run (dispatch h dom ev) rest
  end.

End UseFreeScale.

(** ** Notions the properties are stated with *)

(** The hook has rendered since its state was last set: the ref mirrors the
    state cells. *)
Definition rendered (h : Hook) : Prop := transformConfigRef h = stateOf h.

(** Component-wise sum of two pairs. *)
Definition addXY (a b : number * number) : number * number :=
  (fst a + fst b, snd a + snd b).

(** The pointer deltas of a sequence of pointer-move events: each is the
    pointer position minus the position recorded before it, [last] being the
    one recorded when the sequence starts. *)
Fixpoint pointerDeltas (last : number * number) (es : list MouseEvent)
    : list (number * number) :=
  match es with
  | [] => []
  | e :: rest =>
      (clientX e - fst last, clientY e - snd last)
        :: pointerDeltas (clientX e, clientY e) rest
  end.

(** A drag in progress: pointer-move events, each with the document as it is
    when the event arrives. *)
Definition moves (es : list (Dom * MouseEvent)) : list (Dom * Event) :=
  map (fun de => (fst de, MouseMoveEv (snd de))) es.

(** A correction function that clamps the scale to [[lo, hi]] and passes the
    rest of the proposal through. *)
Definition clampScale (lo hi : number) : CustomTrans :=
  fun _prev v _ _ =>
    {| transXY := transXY v;
       scale := if hi <? scale v then hi
                else if scale v <? lo then lo
                else scale v;
       rotate := rotate v |}.

(** A correction function that, whatever is proposed, answers with scale 2
    and rotation 90. *)
Definition forceScaleRotate : CustomTrans :=
  fun _prev v _ _ => {| transXY := transXY v; scale := 2; rotate := 90 |}.

(** A document with both elements mounted, and a hook in which a drag has
    started at (10, 10); they serve as concrete inputs. *)
Definition sampleDom : Dom :=
  {| containerRef := Some (mkRect 0 0 400 300);
     childRef := Some (mkRect 100 50 200 100) |}.

Definition draggingHook : Hook :=
  render (handleMouseDown initialHook (mkMouse 10 10)).

(** ** Notions for runs of events *)

Definition isWheel (ev : Event) : bool :=
  match ev with WheelEv _ => true | _ => false end.

Definition isPointerMove (ev : Event) : bool :=
  match ev with MouseMoveEv _ => true | _ => false end.

Definition isPointerDown (ev : Event) : bool :=
  match ev with MouseDownEv _ => true | _ => false end.

Definition isPointerUp (ev : Event) : bool :=
  match ev with MouseUpEv => true | _ => false end.

Definition isSetRotate (ev : Event) : bool :=
  match ev with SetRotateEv _ => true | _ => false end.

(** The events of a run that satisfy [keep], and whether none satisfies
    [p]. *)
Definition keepEvents (keep : Event -> bool) (evs : list (Dom * Event))
    : list (Dom * Event) :=
  filter (fun de => keep (snd de)) evs.

Definition noEvent (p : Event -> bool) (evs : list (Dom * Event)) : bool :=
  forallb (fun de => negb (p (snd de))) evs.

(** The drag state after a sequence of events, as the two button listeners
    leave it: a pointer-down starts a drag, a pointer-up ends it, and no other
    event touches it. *)
Fixpoint lockAfter (lock : bool) (evs : list (Dom * Event)) : bool :=
  match evs with
  | [] => lock
  | (_, MouseDownEv _) :: rest => lockAfter true rest
  | (_, MouseUpEv) :: rest => lockAfter false rest
  | _ :: rest => lockAfter lock rest
  end.

(** A run of wheel events, and the wheel events a hook processes when it is
    idle: the delta is not zero and both elements are mounted. *)
Definition wheels (es : list (Dom * WheelEvent)) : list (Dom * Event) :=
  map (fun de => (fst de, WheelEv (snd de))) es.

Definition processable (de : Dom * WheelEvent) : bool :=
  negb (deltaY (snd de) =? 0)
  && match containerRef (fst de), childRef (fst de) with
     | Some _, Some _ => true
     | _, _ => false
     end.

(** One step of the scale: down by [scaleStep] for a positive delta, up by
    [scaleStep] otherwise. *)
Definition stepScale (scaleStep : number) (s : number) (de : Dom * WheelEvent)
    : number :=
  if 0 <? deltaY (snd de) then s - scaleStep else s + scaleStep.

(** The centre of the child as [handleGesture] computes it. *)
Definition childCenterX (child : DOMRect) : number := left child + width child / 2.
Definition childCenterY (child : DOMRect) : number := top child + height child / 2.

(** ** Facts of binary64 arithmetic

    Multiplying by 1 or by -1 is exact, and adding the opposite is
    subtracting.  They are derived from the specification of the primitive
    operations ([SpecFloat]). *)

Module Binary64.

#[local] Open Scope Z_scope.

Lemma digits2_shift52 (m : positive) :
  Zdigits2 (Zpos (4503599627370496 * m)) = Zpos (digits2_pos m) + 52.
Proof.
  cbn [Pos.mul Zdigits2 digits2_pos].
  repeat rewrite Pos2Z.inj_succ. lia.
Qed.

Lemma fexp_canonical (m : positive) (e : Z) :
  canonical_mantissa prec emax m e = true ->
  fexp prec emax (Zpos (digits2_pos m) + e) = e.
Proof.
  unfold canonical_mantissa. intros H. now apply Z.eqb_eq in H.
Qed.

Lemma shr_52 (m : positive) :
  SpecFloat.iter_pos shr_1 52
    {| shr_m := Zpos (4503599627370496 * m); shr_r := false; shr_s := false |}
  = {| shr_m := Zpos m; shr_r := false; shr_s := false |}.
Proof. reflexivity. Qed.

Lemma round_unit (sg : bool) (m : positive) (e : Z) :
  bounded prec emax m e = true ->
  binary_round_aux prec emax sg (Zpos (4503599627370496 * m)) (-52 + e) loc_Exact
  = S754_finite sg m e.
Proof.
  intros Hb. unfold bounded in Hb. apply andb_prop in Hb. destruct Hb as [Hc He].
  pose proof (fexp_canonical m e Hc) as Hf.
  unfold binary_round_aux, shr_fexp.
  rewrite digits2_shift52.
  replace (Zpos (digits2_pos m) + 52 + (-52 + e)) with (Zpos (digits2_pos m) + e) by lia.
  rewrite Hf.
  replace (e - (-52 + e)) with 52 by lia.
  cbn [shr shr_record_of_loc].
  rewrite shr_52.
  cbn [shr_m loc_of_shr_record round_nearest_even Zdigits2].
  replace (-52 + e + 52) with e by lia.
  rewrite Hf, Z.sub_diag. cbn [shr shr_m].
  now rewrite He.
Qed.

Lemma mul_unit_spec (sg : bool) (x : spec_float) :
  valid_binary x = true ->
  SF64mul (S754_finite sg 4503599627370496 (-52)) x = if sg then SFopp x else x.
Proof.
  destruct x as [s | s | | s m e]; intros Hv.
  - now destruct sg, s.
  - now destruct sg, s.
  - now destruct sg.
  - unfold SF64mul, SFmul. rewrite round_unit by exact Hv.
    now destruct sg, s.
Qed.

Lemma mul_1_l (x : float) : (1 * x = x)%float.
Proof.
  apply Prim2SF_inj. rewrite mul_spec.
  change (Prim2SF 1) with (S754_finite false 4503599627370496 (-52)).
  now rewrite mul_unit_spec by apply Prim2SF_valid.
Qed.

Lemma mul_m1_l (x : float) : ((-1) * x = - x)%float.
Proof.
  apply Prim2SF_inj. rewrite mul_spec, opp_spec.
  change (Prim2SF (-1)) with (S754_finite true 4503599627370496 (-52)).
  now rewrite mul_unit_spec by apply Prim2SF_valid.
Qed.

Lemma sub_opp_spec (x y : spec_float) : SF64add x (SFopp y) = SF64sub x y.
Proof.
  destruct x as [sx | sx | | sx mx ex], y as [sy | sy | | sy my ey];
    try reflexivity; now destruct sx, sy.
Qed.

Lemma add_opp_r (x y : float) : (x + - y = x - y)%float.
Proof.
  apply Prim2SF_inj. rewrite add_spec, sub_spec, opp_spec. apply sub_opp_spec.
Qed.

(** A number that is neither positive, nor zero, nor NaN is negative. *)
Lemma negative_cases (x : float) :
  (0 <? x)%float = false -> (x =? 0)%float = false -> is_nan x = false ->
  (x <? 0)%float = true.
Proof.
  unfold is_nan. rewrite !FloatAxioms.ltb_spec, !FloatAxioms.eqb_spec.
  change (Prim2SF 0) with (S754_zero false).
  destruct (Prim2SF x) as [s | s | | s m e]; cbn; try discriminate.
  - now destruct s.
  - now destruct s.
Qed.

(** A negative number is neither positive nor zero, and a positive one is
    not zero. *)
Lemma negative_not_positive (x : float) :
  (x <? 0)%float = true -> (0 <? x)%float = false /\ (x =? 0)%float = false.
Proof.
  rewrite !FloatAxioms.ltb_spec, !FloatAxioms.eqb_spec.
  change (Prim2SF 0) with (S754_zero false).
  destruct (Prim2SF x) as [s | s | | s m e]; cbn; try discriminate;
    now destruct s.
Qed.

Lemma positive_not_zero (x : float) :
  (0 <? x)%float = true -> (x =? 0)%float = false.
Proof.
  rewrite !FloatAxioms.ltb_spec, !FloatAxioms.eqb_spec.
  change (Prim2SF 0) with (S754_zero false).
  destruct (Prim2SF x) as [s | s | | s m e]; cbn; try discriminate;
    now destruct s.
Qed.

End Binary64.

(** ** How the handlers act on the hook *)

Lemma stateOf_render (h : Hook) : stateOf (render h) = stateOf h.
Proof. reflexivity. Qed.

Lemma initialHook_rendered : rendered initialHook.
Proof. reflexivity. Qed.

Section Handlers.

Variable scaleStep : number.
Variable customTrans : CustomTrans.

(** A wheel event that passes the guards commits the three fields of what
    [customTrans] returns. *)
Lemma handleGesture_processed (h : Hook) (dom : Dom) (e : WheelEvent)
    (box child : DOMRect) :
  (deltaY e =? 0) = false ->
  mousedownLock h = false ->
  containerRef dom = Some box ->
  childRef dom = Some child ->
  stateOf (handleGesture scaleStep customTrans h dom e)
  = customTrans (transformConfigRef h)
      (gestureProposal scaleStep (transformConfigRef h) child e)
      (snd (getOriginRect h dom)) SCALE.
Proof.
  intros Hz Hl Hc Hk. unfold handleGesture. rewrite Hz, Hl, Hc, Hk.
  cbn. now destruct (customTrans _ _ _ _).
Qed.

Lemma handleGesture_ignored (h : Hook) (dom : Dom) (e : WheelEvent) :
  mousedownLock h = true \/ (deltaY e =? 0) = true ->
  handleGesture scaleStep customTrans h dom e = h.
Proof.
  intros [Hl | Hz]; unfold handleGesture.
  - rewrite Hl. now destruct (deltaY e =? 0).
  - now rewrite Hz.
Qed.

(** A pointer move in a drag session sets the translation and nothing else
    of the state. *)
Lemma handleMove_dragging (h : Hook) (dom : Dom) (e : MouseEvent) :
  mousedownLock h = true ->
  let prev := transformConfigRef h in
  let proposed :=
    {| transXY := (fst (transXY prev) + (clientX e - fst (mouseXY h)),
                   snd (transXY prev) + (clientY e - snd (mouseXY h)));
       scale := scale prev;
       rotate := rotate prev |} in
  let h' := handleMove customTrans h dom e in
  st_transXY h' = transXY (customTrans prev proposed (snd (getOriginRect h dom)) MOVE)
  /\ st_scale h' = st_scale h /\ st_rotate h' = st_rotate h
  /\ mousedownLock h' = true /\ mouseXY h' = (clientX e, clientY e).
Proof.
  intros Hl. unfold handleMove. rewrite Hl. now cbn.
Qed.

Lemma handleMove_idle (h : Hook) (dom : Dom) (e : MouseEvent) :
  mousedownLock h = false -> handleMove customTrans h dom e = h.
Proof. intros Hl. unfold handleMove. now rewrite Hl. Qed.

End Handlers.

(** ** The wheel gesture *)

(** C1. A wheel event that arrives while no drag is in progress, with a
    vertical delta that is not zero and both elements mounted, hands
    [customTrans] the current state and this proposal: the scale is
    [scale + direction * scaleStep]; the translation is the current one minus
    the offset [(pointer - centre of the child) * direction / scale * scaleStep],
    component by component, the centre being [left + width / 2],
    [top + height / 2] of the child's bounding rectangle; the rotation is the
    current one.  The action is [SCALE], and the scale, translation and
    rotation committed are those [customTrans] returns. *)
Theorem wheel_proposal_and_commit
    (scaleStep : number) (customTrans : CustomTrans)
    (h : Hook) (dom : Dom) (e : WheelEvent) (box child : DOMRect) :
  mousedownLock h = false ->
  (deltaY e =? 0) = false ->
  containerRef dom = Some box ->
  childRef dom = Some child ->
  let cur := transformConfigRef h in
  let d := direc e in
  let centerX := left child + width child / 2 in
  let centerY := top child + height child / 2 in
  let offsetX := (clientX (asMouseEvent e) - centerX) * d / scale cur * scaleStep in
  let offsetY := (clientY (asMouseEvent e) - centerY) * d / scale cur * scaleStep in
  let proposed :=
    {| transXY := (fst (transXY cur) - offsetX, snd (transXY cur) - offsetY);
       scale := scale cur + d * scaleStep;
       rotate := rotate cur |} in
  let result := customTrans cur proposed (snd (getOriginRect h dom)) SCALE in
  let h' := handleGesture scaleStep customTrans h dom e in
  rotate proposed = rotate cur
  /\ st_scale h' = scale result
  /\ st_transXY h' = transXY result
  /\ st_rotate h' = rotate result
  /\ transformConfigRef (dispatch scaleStep customTrans h dom (WheelEv e)) = result.
Proof.
  intros Hl Hz Hc Hk cur d centerX centerY offsetX offsetY proposed result h'.
  pose proof (handleGesture_processed scaleStep customTrans h dom e box child
                Hz Hl Hc Hk) as Hs.
  change (gestureProposal scaleStep (transformConfigRef h) child e)
    with proposed in Hs.
  fold cur result h' in Hs.
  repeat split.
  - now rewrite <- Hs.
  - now rewrite <- Hs.
  - now rewrite <- Hs.
  - unfold dispatch. cbn [handle render transformConfigRef]. exact Hs.
Qed.

Lemma wheel_proposal_and_commit_witness :
  st_scale (handleGesture 0.1 defaultCustomTrans initialHook sampleDom
              (mkWheel (mkMouse 250 150) (-100))) = 1.1
  /\ st_transXY (handleGesture 0.1 defaultCustomTrans initialHook sampleDom
                   (mkWheel (mkMouse 250 150) (-100))) = (-5, -5).
Proof.
  destruct (wheel_proposal_and_commit 0.1 defaultCustomTrans initialHook
              sampleDom (mkWheel (mkMouse 250 150) (-100))
              (mkRect 0 0 400 300) (mkRect 100 50 200 100)
              eq_refl eq_refl eq_refl eq_refl)
    as (_ & Hs & Ht & _ & _).
  split.
  - rewrite Hs. reflexivity.
  - rewrite Ht. reflexivity.
Defined.

(** C5. A wheel event that arrives while a drag is in progress, or whose
    vertical delta is zero, changes nothing: the hook, and so the translation,
    scale and rotation, are after the event what they were before. *)
Theorem wheel_ignored
    (scaleStep : number) (customTrans : CustomTrans)
    (h : Hook) (dom : Dom) (e : WheelEvent) :
  mousedownLock h = true \/ (deltaY e =? 0) = true ->
  handleGesture scaleStep customTrans h dom e = h
  /\ stateOf (dispatch scaleStep customTrans h dom (WheelEv e)) = stateOf h.
Proof.
  intros H. unfold dispatch. cbn [handle]. rewrite stateOf_render.
  now rewrite (handleGesture_ignored scaleStep customTrans h dom e H).
Qed.

Lemma wheel_ignored_witness :
  stateOf (dispatch 0.1 defaultCustomTrans draggingHook sampleDom
             (WheelEv (mkWheel (mkMouse 250 150) (-100))))
  = stateOf draggingHook
  /\ stateOf (dispatch 0.1 defaultCustomTrans initialHook sampleDom
                (WheelEv (mkWheel (mkMouse 250 150) 0)))
     = stateOf initialHook.
Proof.
  split.
  - apply (wheel_ignored 0.1 defaultCustomTrans draggingHook sampleDom
             (mkWheel (mkMouse 250 150) (-100))).
    left. reflexivity.
  - apply (wheel_ignored 0.1 defaultCustomTrans initialHook sampleDom
             (mkWheel (mkMouse 250 150) 0)).
    right. reflexivity.
Defined.

(** With the default [customTrans] the scale committed by a processed wheel
    event is the proposed one. *)
Lemma wheel_scale_default
    (scaleStep : number) (h : Hook) (dom : Dom) (e : WheelEvent)
    (box child : DOMRect) :
  rendered h ->
  mousedownLock h = false ->
  (deltaY e =? 0) = false ->
  containerRef dom = Some box ->
  childRef dom = Some child ->
  stateOf (dispatch scaleStep defaultCustomTrans h dom (WheelEv e))
  = gestureProposal scaleStep (stateOf h) child e
  /\ rendered (dispatch scaleStep defaultCustomTrans h dom (WheelEv e))
  /\ mousedownLock (dispatch scaleStep defaultCustomTrans h dom (WheelEv e)) = false.
Proof.
  intros Hr Hl Hz Hc Hk. unfold dispatch. cbn [handle].
  rewrite stateOf_render.
  rewrite (handleGesture_processed scaleStep defaultCustomTrans h dom e box child
             Hz Hl Hc Hk).
  rewrite Hr. repeat split.
  unfold handleGesture. rewrite Hz, Hl, Hc, Hk. exact Hl.
Qed.

(** C7. With the default (identity) [customTrans], a wheel event that is
    processed moves the scale by one [scaleStep]: the committed scale is the
    binary64 sum [scale + scaleStep] when the delta is not positive, and the
    binary64 difference [scale - scaleStep] when it is positive; no other
    value is committed. *)
Theorem wheel_changes_scale_by_one_step
    (scaleStep : number) (h : Hook) (dom : Dom) (e : WheelEvent)
    (box child : DOMRect) :
  rendered h ->
  mousedownLock h = false ->
  (deltaY e =? 0) = false ->
  containerRef dom = Some box ->
  childRef dom = Some child ->
  let h' := dispatch scaleStep defaultCustomTrans h dom (WheelEv e) in
  st_scale h' = (if 0 <? deltaY e then st_scale h - scaleStep
                 else st_scale h + scaleStep)
  /\ (st_scale h' = st_scale h + scaleStep \/ st_scale h' = st_scale h - scaleStep).
Proof.
  intros Hr Hl Hz Hc Hk h'.
  destruct (wheel_scale_default scaleStep h dom e box child Hr Hl Hz Hc Hk)
    as (Hs & _ & _).
  assert (Hsc : st_scale h' = st_scale h + direc e * scaleStep).
  { change (st_scale h') with (scale (stateOf h')). unfold h'. now rewrite Hs. }
  rewrite Hsc. unfold direc. destruct (0 <? deltaY e).
  - rewrite Binary64.mul_m1_l, Binary64.add_opp_r. auto.
  - rewrite Binary64.mul_1_l. auto.
Qed.

Lemma wheel_changes_scale_by_one_step_witness :
  st_scale (dispatch 0.25 defaultCustomTrans initialHook sampleDom
              (WheelEv (mkWheel (mkMouse 250 150) 100)))
  = 0.75.
Proof.
  destruct (wheel_changes_scale_by_one_step 0.25 initialHook sampleDom
              (mkWheel (mkMouse 250 150) 100)
              (mkRect 0 0 400 300) (mkRect 100 50 200 100)
              initialHook_rendered eq_refl eq_refl eq_refl eq_refl)
    as [Hs _].
  rewrite Hs. reflexivity.
Defined.

(** C8. With [scaleStep = 0.1], the default [customTrans] and scale 1, a
    zoom-in wheel event (negative delta) commits the scale 1.1, and a zoom-out
    wheel event (positive delta) after it commits the scale 1 again. *)
Theorem zoom_in_then_out_round_trip
    (h : Hook) (dom1 dom2 : Dom) (e1 e2 : WheelEvent)
    (box1 child1 box2 child2 : DOMRect) :
  rendered h ->
  mousedownLock h = false ->
  st_scale h = 1 ->
  containerRef dom1 = Some box1 -> childRef dom1 = Some child1 ->
  containerRef dom2 = Some box2 -> childRef dom2 = Some child2 ->
  (deltaY e1 <? 0) = true ->
  (0 <? deltaY e2) = true ->
  let h1 := dispatch 0.1 defaultCustomTrans h dom1 (WheelEv e1) in
  let h2 := dispatch 0.1 defaultCustomTrans h1 dom2 (WheelEv e2) in
  st_scale h1 = 1.1 /\ st_scale h2 = 1.
Proof.
  intros Hr Hl H1 Hc1 Hk1 Hc2 Hk2 Hin Hout h1 h2.
  destruct (Binary64.negative_not_positive _ Hin) as [Hnp Hnz].
  pose proof (Binary64.positive_not_zero _ Hout) as Hnz2.
  destruct (wheel_scale_default 0.1 h dom1 e1 box1 child1 Hr Hl Hnz Hc1 Hk1)
    as (Hs1 & Hr1 & Hl1).
  fold h1 in Hs1, Hr1, Hl1.
  destruct (wheel_scale_default 0.1 h1 dom2 e2 box2 child2 Hr1 Hl1 Hnz2 Hc2 Hk2)
    as (Hs2 & _ & _).
  fold h2 in Hs2.
  assert (E1 : st_scale h1 = 1.1).
  { change (st_scale h1) with (scale (stateOf h1)). rewrite Hs1.
    cbn [gestureProposal scale stateOf]. unfold direc. rewrite Hnp, H1.
    reflexivity. }
  split; [exact E1 |].
  change (st_scale h2) with (scale (stateOf h2)). rewrite Hs2.
  cbn [gestureProposal scale stateOf]. unfold direc. rewrite Hout, E1.
  reflexivity.
Qed.

Lemma zoom_in_then_out_round_trip_witness :
  st_scale (dispatch 0.1 defaultCustomTrans initialHook sampleDom
              (WheelEv (mkWheel (mkMouse 250 150) (-100)))) = 1.1
  /\ st_scale (dispatch 0.1 defaultCustomTrans
                 (dispatch 0.1 defaultCustomTrans initialHook sampleDom
                    (WheelEv (mkWheel (mkMouse 250 150) (-100))))
                 sampleDom (WheelEv (mkWheel (mkMouse 30 40) 100))) = 1.
Proof.
  exact (zoom_in_then_out_round_trip initialHook sampleDom sampleDom
           (mkWheel (mkMouse 250 150) (-100)) (mkWheel (mkMouse 30 40) 100)
           (mkRect 0 0 400 300) (mkRect 100 50 200 100)
           (mkRect 0 0 400 300) (mkRect 100 50 200 100)
           initialHook_rendered eq_refl eq_refl eq_refl eq_refl eq_refl eq_refl
           eq_refl eq_refl).
Defined.

(** ** The drag gesture *)

(** One pointer move of a drag in progress, under the default [customTrans]:
    the translation grows by the pointer delta, the pointer position is
    recorded, and the drag stays in progress. *)
Lemma drag_step (scaleStep : number) (h : Hook) (dom : Dom) (e : MouseEvent) :
  mousedownLock h = true ->
  rendered h ->
  let h' := dispatch scaleStep defaultCustomTrans h dom (MouseMoveEv e) in
  st_transXY h'
  = addXY (st_transXY h) (clientX e - fst (mouseXY h), clientY e - snd (mouseXY h))
  /\ mouseXY h' = (clientX e, clientY e)
  /\ mousedownLock h' = true
  /\ rendered h'.
Proof.
  intros Hl Hr h'.
  destruct (handleMove_dragging defaultCustomTrans h dom e Hl)
    as (Ht & _ & _ & Hl' & Hm).
  unfold h', dispatch. cbn [handle].
  repeat split; try assumption.
  change (st_transXY (render ?x)) with (st_transXY x).
  rewrite Ht, Hr. reflexivity.
Qed.

(** C3. During one drag session and with the default (identity)
    [customTrans], after any finite sequence of pointer-move events the
    translation is the initial translation with the pointer deltas added to
    it, component by component, one after the other in the order of the
    events; each delta is the pointer position minus the position recorded
    before it.  The additions are those of binary64 numbers. *)
Theorem drag_translation_is_initial_plus_deltas
    (scaleStep : number) (es : list (Dom * MouseEvent)) (h : Hook) :
  mousedownLock h = true ->
  rendered h ->
  st_transXY (run scaleStep defaultCustomTrans h (moves es))
  = fold_left addXY (pointerDeltas (mouseXY h) (map snd es)) (st_transXY h).
Proof.
  revert h. induction es as [| [dom e] rest IH]; intros h Hl Hr.
  - reflexivity.
  - destruct (drag_step scaleStep h dom e Hl Hr) as (Ht & Hm & Hl' & Hr').
    cbn [moves map run fst snd pointerDeltas fold_left].
    fold (moves rest).
    rewrite (IH _ Hl' Hr'), Hm, Ht. reflexivity.
Qed.

Lemma drag_translation_is_initial_plus_deltas_witness :
  st_transXY (run 0.1 defaultCustomTrans draggingHook
                (moves [(sampleDom, mkMouse 13 14); (sampleDom, mkMouse 20 9);
                        (sampleDom, mkMouse 20.5 9)]))
  = (10.5, -1).
Proof.
  rewrite (drag_translation_is_initial_plus_deltas 0.1
             [(sampleDom, mkMouse 13 14); (sampleDom, mkMouse 20 9);
              (sampleDom, mkMouse 20.5 9)]
             draggingHook eq_refl eq_refl).
  reflexivity.
Defined.

(** C10. A pointer-move event of a drag in progress commits the translation
    that [customTrans] returns and nothing else: whatever [customTrans] is,
    and whatever scale and rotation its result carries, the scale and the
    rotation after the event are those before it, and the translation is the
    one of the result. *)
Theorem move_commits_translation_only
    (scaleStep : number) (customTrans : CustomTrans)
    (h : Hook) (dom : Dom) (e : MouseEvent) :
  mousedownLock h = true ->
  let prev := transformConfigRef h in
  let proposed :=
    {| transXY := (fst (transXY prev) + (clientX e - fst (mouseXY h)),
                   snd (transXY prev) + (clientY e - snd (mouseXY h)));
       scale := scale prev;
       rotate := rotate prev |} in
  let h' := dispatch scaleStep customTrans h dom (MouseMoveEv e) in
  st_scale h' = st_scale h
  /\ st_rotate h' = st_rotate h
  /\ st_transXY h'
     = transXY (customTrans prev proposed (snd (getOriginRect h dom)) MOVE).
Proof.
  intros Hl prev proposed h'.
  destruct (handleMove_dragging customTrans h dom e Hl) as (Ht & Hs & Ho & _).
  repeat split; assumption.
Qed.

Lemma move_commits_translation_only_witness :
  st_scale (dispatch 0.1 forceScaleRotate draggingHook sampleDom
              (MouseMoveEv (mkMouse 13 14))) = 1
  /\ st_rotate (dispatch 0.1 forceScaleRotate draggingHook sampleDom
                  (MouseMoveEv (mkMouse 13 14))) = 0.
Proof.
  destruct (move_commits_translation_only 0.1 forceScaleRotate draggingHook
              sampleDom (mkMouse 13 14) eq_refl) as (Hs & Ho & _).
  split; [exact Hs | exact Ho].
Defined.

(** ** What is committed goes through [customTrans] *)

(** C4, as stated, fails for a pointer move: with a [customTrans] that answers
    scale 2 and rotation 90, the state after a move of a drag in progress is
    not the state [customTrans] returned for that move. *)
Lemma move_commit_is_not_the_whole_result :
  stateOf (dispatch 0.1 forceScaleRotate draggingHook sampleDom
             (MouseMoveEv (mkMouse 13 14)))
  <> forceScaleRotate (transformConfigRef draggingHook)
       {| transXY := (fst (transXY (transformConfigRef draggingHook))
                        + (13 - fst (mouseXY draggingHook)),
                      snd (transXY (transformConfigRef draggingHook))
                        + (14 - snd (mouseXY draggingHook)));
          scale := scale (transformConfigRef draggingHook);
          rotate := rotate (transformConfigRef draggingHook) |}
       (snd (getOriginRect draggingHook sampleDom)) MOVE.
Proof.
  intros H. apply (f_equal (fun r => scale r =? 2)) in H.
  vm_compute in H. discriminate H.
Qed.

(** C4, amended. Every update is computed by [customTrans], called with the
    previous state, the proposal, the rect snapshot and the action.  A
    processed wheel event commits the state [customTrans] returns, all three
    components.  A pointer move of a drag in progress commits the translation
    of the state [customTrans] returns, and keeps the scale and the rotation.
    With a [customTrans] that clamps the scale to [[0.5, 2]], a processed
    wheel event whose proposed scale is 2.3 commits the scale 2. *)
Theorem commit_goes_through_customTrans
    (scaleStep : number) (customTrans : CustomTrans) (h : Hook) (dom : Dom) :
  (forall (e : WheelEvent) (box child : DOMRect),
      mousedownLock h = false -> (deltaY e =? 0) = false ->
      containerRef dom = Some box -> childRef dom = Some child ->
      stateOf (dispatch scaleStep customTrans h dom (WheelEv e))
      = customTrans (transformConfigRef h)
          (gestureProposal scaleStep (transformConfigRef h) child e)
          (snd (getOriginRect h dom)) SCALE)
  /\ (forall e : MouseEvent,
      mousedownLock h = true ->
      let prev := transformConfigRef h in
      let proposed :=
        {| transXY := (fst (transXY prev) + (clientX e - fst (mouseXY h)),
                       snd (transXY prev) + (clientY e - snd (mouseXY h)));
           scale := scale prev;
           rotate := rotate prev |} in
      let h' := dispatch scaleStep customTrans h dom (MouseMoveEv e) in
      st_transXY h'
      = transXY (customTrans prev proposed (snd (getOriginRect h dom)) MOVE)
      /\ st_scale h' = st_scale h /\ st_rotate h' = st_rotate h)
  /\ (forall (e : WheelEvent) (box child : DOMRect),
      mousedownLock h = false -> (deltaY e =? 0) = false ->
      containerRef dom = Some box -> childRef dom = Some child ->
      scale (transformConfigRef h) + direc e * scaleStep = 2.3 ->
      st_scale (dispatch scaleStep (clampScale 0.5 2) h dom (WheelEv e)) = 2).
Proof.
  split; [| split].
  - intros e box child Hl Hz Hc Hk. unfold dispatch. cbn [handle].
    rewrite stateOf_render.
    now apply handleGesture_processed with (box := box).
  - intros e Hl prev proposed h'.
    destruct (handleMove_dragging customTrans h dom e Hl) as (Ht & Hs & Ho & _).
    repeat split; assumption.
  - intros e box child Hl Hz Hc Hk Hp.
    change (st_scale ?x) with (scale (stateOf x)).
    unfold dispatch. cbn [handle]. rewrite stateOf_render.
    rewrite (handleGesture_processed scaleStep (clampScale 0.5 2) h dom e
               box child Hz Hl Hc Hk).
    cbn [clampScale scale gestureProposal]. rewrite Hp. reflexivity.
Qed.

Lemma commit_goes_through_customTrans_witness :
  st_scale (dispatch 0.3 (clampScale 0.5 2) (render (setScale initialHook 2))
              sampleDom (WheelEv (mkWheel (mkMouse 250 150) (-100)))) = 2
  /\ st_transXY (dispatch 0.3 (clampScale 0.5 2) draggingHook sampleDom
                   (MouseMoveEv (mkMouse 13 14))) = (3, 4).
Proof.
  split.
  - destruct (commit_goes_through_customTrans 0.3 (clampScale 0.5 2)
                (render (setScale initialHook 2)) sampleDom) as (_ & _ & Hclamp).
    exact (Hclamp (mkWheel (mkMouse 250 150) (-100))
             (mkRect 0 0 400 300) (mkRect 100 50 200 100)
             eq_refl eq_refl eq_refl eq_refl eq_refl).
  - destruct (commit_goes_through_customTrans 0.3 (clampScale 0.5 2)
                draggingHook sampleDom) as (_ & Hmove & _).
    destruct (Hmove (mkMouse 13 14) eq_refl) as (Ht & _ & _).
    rewrite Ht. reflexivity.
Defined.

(** ** The transform string *)

(** C6. For every state the transform string is made of translateX with
    the first component of the translation in px, translateY with the second
    in px, rotate with the rotation in deg and scale with the bare scale, in
    this order and separated by one space, each number written as the language
    writes numbers; for translation (10, 20), rotation 30 and scale 1.5 it is
    translateX(10px) translateY(20px) rotate(30deg) scale(1.5). *)
Theorem transform_string_format :
  (forall h : Hook,
      transform h
      = ("translateX(" ++ JSNumber.toString (fst (st_transXY h)) ++ "px) "
         ++ "translateY(" ++ JSNumber.toString (snd (st_transXY h)) ++ "px) "
         ++ "rotate(" ++ JSNumber.toString (st_rotate h) ++ "deg) "
         ++ "scale(" ++ JSNumber.toString (st_scale h) ++ ")")%string)
  /\ transform (setRotate (setScale (setTransXY initialHook (10, 20)) 1.5) 30)
     = "translateX(10px) translateY(20px) rotate(30deg) scale(1.5)"%string.
Proof.
  split.
  - intros h. reflexivity.
  - vm_compute. reflexivity.
Qed.

(** ** The rect snapshot *)

(** A rectangle that is in the cache stays there through every event. *)
Lemma container_cache_stable
    (scaleStep : number) (customTrans : CustomTrans)
    (h : Hook) (dom : Dom) (ev : Event) (c : DOMRect) :
  containerRectRef h = Some c ->
  containerRectRef (dispatch scaleStep customTrans h dom ev) = Some c.
Proof.
  intros Hc. unfold dispatch. destruct ev as [e | e | | e | v | v | v];
    cbn [handle render containerRectRef]; try exact Hc.
  - unfold handleMove. destruct (mousedownLock h); cbn; [| exact Hc].
    now rewrite Hc.
  - unfold handleGesture.
    destruct (deltaY e =? 0); [exact Hc |].
    destruct (mousedownLock h); [exact Hc |].
    destruct (containerRef dom); [| exact Hc].
    destruct (childRef dom); [| exact Hc].
    cbn. now rewrite Hc.
Qed.

Lemma child_cache_stable
    (scaleStep : number) (customTrans : CustomTrans)
    (h : Hook) (dom : Dom) (ev : Event) (k : DOMRect) :
  childRectRef h = Some k ->
  childRectRef (dispatch scaleStep customTrans h dom ev) = Some k.
Proof.
  intros Hk. unfold dispatch. destruct ev as [e | e | | e | v | v | v];
    cbn [handle render childRectRef]; try exact Hk.
  - unfold handleMove. destruct (mousedownLock h); cbn; [| exact Hk].
    now rewrite Hk.
  - unfold handleGesture.
    destruct (deltaY e =? 0); [exact Hk |].
    destruct (mousedownLock h); [exact Hk |].
    destruct (containerRef dom); [| exact Hk].
    destruct (childRef dom); [| exact Hk].
    cbn. now rewrite Hk.
Qed.

Lemma container_cache_stable_run
    (scaleStep : number) (customTrans : CustomTrans)
    (evs : list (Dom * Event)) (h : Hook) (c : DOMRect) :
  containerRectRef h = Some c ->
  containerRectRef (run scaleStep customTrans h evs) = Some c.
Proof.
  revert h. induction evs as [| [dom ev] rest IH]; intros h Hc.
  - exact Hc.
  - cbn [run]. apply IH. now apply container_cache_stable.
Qed.

Lemma child_cache_stable_run
    (scaleStep : number) (customTrans : CustomTrans)
    (evs : list (Dom * Event)) (h : Hook) (k : DOMRect) :
  childRectRef h = Some k ->
  childRectRef (run scaleStep customTrans h evs) = Some k.
Proof.
  revert h. induction evs as [| [dom ev] rest IH]; intros h Hk.
  - exact Hk.
  - cbn [run]. apply IH. now apply child_cache_stable.
Qed.

Lemma getOriginRect_cached (h : Hook) (dom : Dom) (c k : DOMRect) :
  containerRectRef h = Some c ->
  childRectRef h = Some k ->
  getOriginRect h dom
  = (h, {| originConatinerRect := Some c; originChildRect := Some k |}).
Proof.
  intros Hc Hk. unfold getOriginRect, with_rects. cbn.
  rewrite Hc, Hk. cbn. destruct h; cbn in *. now subst.
Qed.

(** C9. The rect snapshot is taken when [getOriginRect] is first called:
    with an empty cache it returns the rectangles the two elements have then
    and stores them, which is what the first processed wheel event and the
    first pointer move of a drag do.  A rectangle that is in the cache is there for good:
    after any sequence of events (pointer down, move and up, wheel, and the
    three setters) [getOriginRect] returns that same rectangle whatever the
    element's rectangle is by then, and keeps it in the cache; with both
    rectangles cached the call leaves the hook as it is.  Nothing empties or
    refreshes the cache. *)
Theorem rect_snapshot_is_cached
    (scaleStep : number) (customTrans : CustomTrans) :
  (forall (h : Hook) (dom : Dom),
      containerRectRef h = None -> childRectRef h = None ->
      snd (getOriginRect h dom)
      = {| originConatinerRect := containerRef dom;
           originChildRect := childRef dom |}
      /\ containerRectRef (fst (getOriginRect h dom)) = containerRef dom
      /\ childRectRef (fst (getOriginRect h dom)) = childRef dom)
  /\ (forall (h : Hook) (dom : Dom) (e : WheelEvent) (box child : DOMRect),
      containerRectRef h = None -> childRectRef h = None ->
      mousedownLock h = false -> (deltaY e =? 0) = false ->
      containerRef dom = Some box -> childRef dom = Some child ->
      let h' := dispatch scaleStep customTrans h dom (WheelEv e) in
      containerRectRef h' = Some box /\ childRectRef h' = Some child)
  /\ (forall (h : Hook) (dom : Dom) (e : MouseEvent),
      containerRectRef h = None -> childRectRef h = None ->
      mousedownLock h = true ->
      let h' := dispatch scaleStep customTrans h dom (MouseMoveEv e) in
      containerRectRef h' = containerRef dom /\ childRectRef h' = childRef dom)
  /\ (forall (h : Hook) (c : DOMRect),
      containerRectRef h = Some c ->
      forall (evs : list (Dom * Event)) (dom : Dom),
        let h' := run scaleStep customTrans h evs in
        originConatinerRect (snd (getOriginRect h' dom)) = Some c
        /\ containerRectRef (fst (getOriginRect h' dom)) = Some c)
  /\ (forall (h : Hook) (k : DOMRect),
      childRectRef h = Some k ->
      forall (evs : list (Dom * Event)) (dom : Dom),
        let h' := run scaleStep customTrans h evs in
        originChildRect (snd (getOriginRect h' dom)) = Some k
        /\ childRectRef (fst (getOriginRect h' dom)) = Some k)
  /\ (forall (h : Hook) (c k : DOMRect),
      containerRectRef h = Some c -> childRectRef h = Some k ->
      forall (evs : list (Dom * Event)) (dom : Dom),
        let h' := run scaleStep customTrans h evs in
        getOriginRect h' dom
        = (h', {| originConatinerRect := Some c; originChildRect := Some k |})).
Proof.
  split; [| split; [| split; [| split; [| split]]]].
  - intros h dom Hc Hk. unfold getOriginRect. cbn. now rewrite Hc, Hk.
  - intros h dom e box child Hc Hk Hl Hz Hb Hch h'.
    unfold h', dispatch. cbn [handle]. unfold handleGesture.
    rewrite Hz, Hl, Hb, Hch. cbn. now rewrite Hc, Hk, Hb, Hch.
  - intros h dom e Hc Hk Hl h'.
    unfold h', dispatch. cbn [handle]. unfold handleMove.
    rewrite Hl. cbn. now rewrite Hc, Hk.
  - intros h c Hc evs dom h'.
    pose proof (container_cache_stable_run scaleStep customTrans evs h c Hc)
      as Hc'.
    fold h' in Hc'. unfold getOriginRect. cbn. now rewrite Hc'.
  - intros h k Hk evs dom h'.
    pose proof (child_cache_stable_run scaleStep customTrans evs h k Hk)
      as Hk'.
    fold h' in Hk'. unfold getOriginRect. cbn. now rewrite Hk'.
  - intros h c k Hc Hk evs dom h'.
    apply getOriginRect_cached.
    + now apply container_cache_stable_run.
    + now apply child_cache_stable_run.
Qed.

Lemma rect_snapshot_is_cached_witness :
  snd (getOriginRect
         (run 0.1 defaultCustomTrans
            (fst (getOriginRect initialHook sampleDom))
            [(sampleDom, MouseDownEv (mkMouse 10 10));
             (mkDom (Some (mkRect 0 0 800 600)) (Some (mkRect 5 5 50 50)),
              MouseMoveEv (mkMouse 13 14));
             (sampleDom, MouseUpEv);
             (mkDom None None, WheelEv (mkWheel (mkMouse 1 1) 3));
             (sampleDom, SetScaleEv 4)])
         (mkDom (Some (mkRect 0 0 800 600)) None))
  = {| originConatinerRect := Some (mkRect 0 0 400 300);
       originChildRect := Some (mkRect 100 50 200 100) |}.
Proof.
  destruct (rect_snapshot_is_cached 0.1 defaultCustomTrans)
    as (Hfirst & _ & _ & _ & _ & Hlater).
  destruct (Hfirst initialHook sampleDom eq_refl eq_refl) as (_ & Hc & Hk).
  rewrite (Hlater (fst (getOriginRect initialHook sampleDom))
             (mkRect 0 0 400 300) (mkRect 100 50 200 100) Hc Hk).
  reflexivity.
Defined.

(** ** The direction of a wheel event *)

(** The direction depends on the sign of the vertical delta alone: for a
    delta that is a number and not zero, it is 1 when the delta is negative
    and -1 when it is positive. *)
Lemma direc_sign (e : WheelEvent) :
  is_nan (deltaY e) = false ->
  (deltaY e =? 0) = false ->
  (direc e = 1 /\ (deltaY e <? 0) = true /\ (0 <? deltaY e) = false)
  \/ (direc e = -1 /\ (0 <? deltaY e) = true /\ (deltaY e <? 0) = false).
Proof.
  intros Hn Hz. unfold direc. destruct (0 <? deltaY e) eqn:Hp.
  - right. repeat split.
    destruct (deltaY e <? 0) eqn:Hq; [| reflexivity].
    destruct (Binary64.negative_not_positive _ Hq) as [Hc _]. congruence.
  - left. repeat split. now apply Binary64.negative_cases.
Qed.

(** ** More facts of binary64 arithmetic

    The class of a number (NaN, infinite, zero, finite) read on its
    specification, and what the operations do at zero and at infinity. *)

Module Binary64Class.

(** The class of a binary64 number, read on its specification. *)
Lemma is_nan_spec (x : float) :
  is_nan x = match Prim2SF x with S754_nan => true | _ => false end.
Proof.
  unfold is_nan. rewrite FloatAxioms.eqb_spec. unfold SFeqb.
  destruct (Prim2SF x) as [s | s | | s m e]; cbn.
  - reflexivity.
  - now destruct s.
  - reflexivity.
  - now destruct s; rewrite Z.compare_refl, Pos.compare_cont_refl.
Qed.

Lemma is_infinity_spec (x : float) :
  is_infinity x = match Prim2SF x with S754_infinity _ => true | _ => false end.
Proof.
  unfold is_infinity. rewrite FloatAxioms.eqb_spec, abs_spec.
  change (Prim2SF infinity) with (S754_infinity false).
  now destruct (Prim2SF x) as [s | s | | s m e].
Qed.

Lemma is_zero_spec (x : float) :
  (x =? 0) = match Prim2SF x with S754_zero _ => true | _ => false end.
Proof.
  rewrite FloatAxioms.eqb_spec.
  change (Prim2SF 0) with (S754_zero false).
  destruct (Prim2SF x) as [s | s | | s m e]; cbn; try reflexivity;
    now destruct s.
Qed.

Lemma is_finite_spec (x : float) :
  is_finite x
  = match Prim2SF x with S754_zero _ | S754_finite _ _ _ => true | _ => false end.
Proof.
  unfold is_finite. rewrite is_nan_spec, is_infinity_spec.
  now destruct (Prim2SF x).
Qed.

Ltac classify :=
  repeat match goal with
    | H : context [is_finite _] |- _ => rewrite is_finite_spec in H
    | H : context [is_infinity _] |- _ => rewrite is_infinity_spec in H
    | H : context [is_nan _] |- _ => rewrite is_nan_spec in H
    | H : context [(_ =? 0)] |- _ => rewrite is_zero_spec in H
    | |- context [is_finite _] => rewrite is_finite_spec
    | |- context [is_infinity _] => rewrite is_infinity_spec
    | |- context [is_nan _] => rewrite is_nan_spec
    | |- context [(_ =? 0)] => rewrite is_zero_spec
    end.

(** A finite number minus itself is [+0]. *)
Lemma sub_diag (x : float) : is_finite x = true -> x - x = 0.
Proof.
  intros Hf. classify. apply Prim2SF_inj. rewrite sub_spec.
  change (Prim2SF 0) with (S754_zero false).
  destruct (Prim2SF x) as [s | s | | s m e]; try discriminate.
  - now destruct s.
  - unfold SF64sub, SFsub. now rewrite Z.sub_diag.
Qed.

(** The opposite of a number is in the class of the number. *)
Lemma opp_class (x : float) :
  is_finite (- x) = is_finite x /\ ((- x =? 0) = (x =? 0)).
Proof.
  classify. rewrite opp_spec. now destruct (Prim2SF x).
Qed.

(** Zero times a finite number, and zero over a number that is neither zero
    nor NaN, is zero. *)
Lemma zero_mul (z s : float) :
  (z =? 0) = true -> is_finite s = true -> (z * s =? 0) = true.
Proof.
  intros Hz Hs. classify. rewrite mul_spec.
  now destruct (Prim2SF z), (Prim2SF s).
Qed.

Lemma zero_div (z s : float) :
  (z =? 0) = true -> is_nan s = false -> (s =? 0) = false ->
  (z / s =? 0) = true.
Proof.
  intros Hz Hn Hs. classify. rewrite div_spec.
  now destruct (Prim2SF z), (Prim2SF s).
Qed.

(** Taking zero away from a number gives a number equal to it. *)
Lemma sub_zero (t z : float) :
  (z =? 0) = true -> is_nan t = false -> (t - z =? t) = true.
Proof.
  intros Hz Hn. classify.
  rewrite FloatAxioms.eqb_spec, sub_spec. unfold SFeqb.
  destruct (Prim2SF z) as [sz | | |]; try discriminate.
  destruct (Prim2SF t) as [s | s | | s m e]; try discriminate; cbn.
  - now destruct s, sz.
  - now destruct s.
  - now destruct s; rewrite Z.compare_refl, Pos.compare_cont_refl.
Qed.

(** A finite number that is not zero, divided by zero, is infinite. *)
Lemma div_by_zero (x z : float) :
  is_finite x = true -> (x =? 0) = false -> (z =? 0) = true ->
  is_infinity (x / z) = true.
Proof.
  intros Hf Hx Hz. classify. rewrite div_spec.
  now destruct (Prim2SF x), (Prim2SF z).
Qed.

(** An infinite number times a positive one is infinite. *)
Lemma infinity_mul_positive (a s : float) :
  is_infinity a = true -> (0 <? s) = true -> is_infinity (a * s) = true.
Proof.
  intros Ha Hs. classify. rewrite FloatAxioms.ltb_spec in Hs. rewrite mul_spec.
  change (Prim2SF 0) with (S754_zero false) in Hs.
  destruct (Prim2SF a); try discriminate.
  now destruct (Prim2SF s).
Qed.

(** A finite number minus an infinite one is infinite. *)
Lemma finite_sub_infinity (t a : float) :
  is_finite t = true -> is_infinity a = true -> is_infinity (t - a) = true.
Proof.
  intros Ht Ha. classify. rewrite sub_spec.
  now destruct (Prim2SF t), (Prim2SF a).
Qed.

End Binary64Class.

Module Binary64Mul.

(** Multiplication of binary64 numbers is commutative, so multiplying by 1 or
    by -1 on the right is exact too. *)
Lemma mul_comm (x y : float) : x * y = y * x.
Proof.
  apply Prim2SF_inj. rewrite !mul_spec. unfold SF64mul, SFmul.
  destruct (Prim2SF x) as [sx | sx | | sx mx ex],
           (Prim2SF y) as [sy | sy | | sy my ey];
    try reflexivity; try (now rewrite xorb_comm).
  now rewrite xorb_comm, Pos.mul_comm, Z.add_comm.
Qed.

Lemma mul_1_r (x : float) : x * 1 = x.
Proof. rewrite mul_comm. apply Binary64.mul_1_l. Qed.

Lemma mul_m1_r (x : float) : x * (-1) = - x.
Proof. rewrite mul_comm. apply Binary64.mul_m1_l. Qed.

End Binary64Mul.

(** ** Runs of events *)

Lemma render_id (h : Hook) : rendered h -> render h = h.
Proof.
  unfold rendered, render, stateOf. intros Hr. destruct h; cbn in *. now subst.
Qed.

Lemma dispatch_rendered (scaleStep : number) (customTrans : CustomTrans)
    (h : Hook) (dom : Dom) (ev : Event) :
  rendered (dispatch scaleStep customTrans h dom ev).
Proof. reflexivity. Qed.

(** What one event does to the drag state. *)
Lemma dispatch_lock (scaleStep : number) (customTrans : CustomTrans)
    (h : Hook) (dom : Dom) (ev : Event) :
  mousedownLock (dispatch scaleStep customTrans h dom ev)
  = match ev with
    | MouseDownEv _ => true
    | MouseUpEv => false
    | _ => mousedownLock h
    end.
Proof.
  unfold dispatch. destruct ev as [e | e | | e | v | v | v];
    cbn [handle render mousedownLock]; try reflexivity.
  - unfold handleMove. destruct (mousedownLock h) eqn:Hl; cbn; [| exact Hl].
    exact Hl.
  - unfold handleGesture.
    destruct (deltaY e =? 0); [reflexivity |].
    destruct (mousedownLock h) eqn:Hl; [exact Hl |].
    destruct (containerRef dom); [| exact Hl].
    destruct (childRef dom); [| exact Hl].
    cbn. exact Hl.
Qed.

(** X1. The drag state after any run is the one the button events of the run
    determine: in progress after a pointer-down, over after a pointer-up,
    and as it was when the run has neither.  Pointer moves, wheel events and
    the setters never start or end a drag, whatever [customTrans] does. *)
Theorem drag_state_follows_buttons
    (scaleStep : number) (customTrans : CustomTrans)
    (evs : list (Dom * Event)) (h : Hook) :
  mousedownLock (run scaleStep customTrans h evs)
  = lockAfter (mousedownLock h) evs.
Proof.
  revert h. induction evs as [| [dom ev] rest IH]; intros h.
  - reflexivity.
  - cbn [run]. rewrite IH, dispatch_lock. now destruct ev.
Qed.

(** X2. While a drag is in progress and until a pointer-up arrives, wheel
    events count for nothing: a run gives the same hook with its wheel events
    left out. *)
Theorem drag_ignores_wheel_events
    (scaleStep : number) (customTrans : CustomTrans)
    (evs : list (Dom * Event)) (h : Hook) :
  mousedownLock h = true ->
  rendered h ->
  noEvent isPointerUp evs = true ->
  run scaleStep customTrans h evs
  = run scaleStep customTrans h (keepEvents (fun ev => negb (isWheel ev)) evs).
Proof.
  revert h. induction evs as [| [dom ev] rest IH]; intros h Hl Hr Hup.
  - reflexivity.
  - cbn [noEvent forallb snd] in Hup. apply andb_prop in Hup.
    destruct Hup as [Hev Hrest].
    assert (Hl' : mousedownLock (dispatch scaleStep customTrans h dom ev) = true).
    { rewrite dispatch_lock. destruct ev; try exact Hl; try reflexivity.
      discriminate Hev. }
    cbn [keepEvents filter snd run].
    destruct ev as [e | e | | e | v | v | v]; cbn [isWheel negb run];
      try (apply IH; [exact Hl' | apply dispatch_rendered | exact Hrest]).
    fold (keepEvents (fun ev => negb (isWheel ev)) rest).
    rewrite <- IH by (try exact Hl; try exact Hr; exact Hrest).
    f_equal. unfold dispatch. cbn [handle].
    rewrite handleGesture_ignored by (left; exact Hl).
    now apply render_id.
Qed.

Lemma drag_ignores_wheel_events_witness :
  run 0.1 defaultCustomTrans draggingHook
    [(sampleDom, WheelEv (mkWheel (mkMouse 250 150) (-100)));
     (sampleDom, MouseMoveEv (mkMouse 13 14));
     (sampleDom, WheelEv (mkWheel (mkMouse 1 1) 100));
     (sampleDom, MouseDownEv (mkMouse 15 15))]
  = run 0.1 defaultCustomTrans draggingHook
      [(sampleDom, MouseMoveEv (mkMouse 13 14));
       (sampleDom, MouseDownEv (mkMouse 15 15))].
Proof.
  exact (drag_ignores_wheel_events 0.1 defaultCustomTrans
           [(sampleDom, WheelEv (mkWheel (mkMouse 250 150) (-100)));
            (sampleDom, MouseMoveEv (mkMouse 13 14));
            (sampleDom, WheelEv (mkWheel (mkMouse 1 1) 100));
            (sampleDom, MouseDownEv (mkMouse 15 15))]
           draggingHook eq_refl eq_refl eq_refl).
Defined.

(** X3. While no drag is in progress and until a pointer-down arrives,
    pointer moves count for nothing: a run gives the same hook with its
    pointer-move events left out. *)
Theorem idle_ignores_pointer_moves
    (scaleStep : number) (customTrans : CustomTrans)
    (evs : list (Dom * Event)) (h : Hook) :
  mousedownLock h = false ->
  rendered h ->
  noEvent isPointerDown evs = true ->
  run scaleStep customTrans h evs
  = run scaleStep customTrans h
      (keepEvents (fun ev => negb (isPointerMove ev)) evs).
Proof.
  revert h. induction evs as [| [dom ev] rest IH]; intros h Hl Hr Hdown.
  - reflexivity.
  - cbn [noEvent forallb snd] in Hdown. apply andb_prop in Hdown.
    destruct Hdown as [Hev Hrest].
    assert (Hl' : mousedownLock (dispatch scaleStep customTrans h dom ev) = false).
    { rewrite dispatch_lock. destruct ev; try exact Hl; try reflexivity.
      discriminate Hev. }
    cbn [keepEvents filter snd run].
    destruct ev as [e | e | | e | v | v | v]; cbn [isPointerMove negb run];
      try (apply IH; [exact Hl' | apply dispatch_rendered | exact Hrest]).
    fold (keepEvents (fun ev => negb (isPointerMove ev)) rest).
    rewrite <- IH by (try exact Hl; try exact Hr; exact Hrest).
    f_equal. unfold dispatch. cbn [handle].
    rewrite handleMove_idle by exact Hl.
    now apply render_id.
Qed.

Lemma idle_ignores_pointer_moves_witness :
  run 0.1 defaultCustomTrans initialHook
    [(sampleDom, MouseMoveEv (mkMouse 13 14));
     (sampleDom, WheelEv (mkWheel (mkMouse 250 150) (-100)));
     (sampleDom, MouseMoveEv (mkMouse 40 2));
     (sampleDom, MouseUpEv)]
  = run 0.1 defaultCustomTrans initialHook
      [(sampleDom, WheelEv (mkWheel (mkMouse 250 150) (-100)));
       (sampleDom, MouseUpEv)].
Proof.
  exact (idle_ignores_pointer_moves 0.1 defaultCustomTrans
           [(sampleDom, MouseMoveEv (mkMouse 13 14));
            (sampleDom, WheelEv (mkWheel (mkMouse 250 150) (-100)));
            (sampleDom, MouseMoveEv (mkMouse 40 2));
            (sampleDom, MouseUpEv)]
           initialHook eq_refl eq_refl eq_refl).
Defined.

(** X4. A wheel event that finds the container or the child not mounted does
    nothing at all, whatever its delta. *)
Theorem wheel_without_elements_is_ignored
    (scaleStep : number) (customTrans : CustomTrans)
    (h : Hook) (dom : Dom) (e : WheelEvent) :
  containerRef dom = None \/ childRef dom = None ->
  handleGesture scaleStep customTrans h dom e = h.
Proof.
  intros Hd. unfold handleGesture.
  destruct (deltaY e =? 0); [reflexivity |].
  destruct (mousedownLock h); [reflexivity |].
  destruct Hd as [Hc | Hk].
  - now rewrite Hc.
  - rewrite Hk. now destruct (containerRef dom).
Qed.

Lemma wheel_without_elements_is_ignored_witness :
  handleGesture 0.1 defaultCustomTrans initialHook
    (mkDom (Some (mkRect 0 0 400 300)) None) (mkWheel (mkMouse 250 150) (-100))
  = initialHook.
Proof.
  apply (wheel_without_elements_is_ignored 0.1 defaultCustomTrans initialHook
           (mkDom (Some (mkRect 0 0 400 300)) None)
           (mkWheel (mkMouse 250 150) (-100))).
  right. reflexivity.
Defined.

(** X5. A pointer move of a drag does not need the elements: when neither
    is mounted and no snapshot was taken before, [customTrans] is called with
    both rectangles undefined, and the translation it returns is committed. *)
Theorem move_with_unmounted_elements
    (scaleStep : number) (customTrans : CustomTrans)
    (h : Hook) (e : MouseEvent) :
  mousedownLock h = true ->
  containerRectRef h = None ->
  childRectRef h = None ->
  let prev := transformConfigRef h in
  let proposed :=
    {| transXY := (fst (transXY prev) + (clientX e - fst (mouseXY h)),
                   snd (transXY prev) + (clientY e - snd (mouseXY h)));
       scale := scale prev;
       rotate := rotate prev |} in
  let h' := dispatch scaleStep customTrans h (mkDom None None) (MouseMoveEv e) in
  st_transXY h'
  = transXY (customTrans prev proposed
               {| originConatinerRect := None; originChildRect := None |} MOVE)
  /\ containerRectRef h' = None /\ childRectRef h' = None.
Proof.
  intros Hl Hc Hk prev proposed h'.
  unfold h', dispatch. cbn [handle]. unfold handleMove. rewrite Hl.
  cbn. rewrite Hc, Hk. cbn. repeat split.
Qed.

Lemma move_with_unmounted_elements_witness :
  st_transXY (dispatch 0.1 defaultCustomTrans draggingHook (mkDom None None)
                (MouseMoveEv (mkMouse 13 14)))
  = (3, 4).
Proof.
  destruct (move_with_unmounted_elements 0.1 defaultCustomTrans draggingHook
              (mkMouse 13 14) eq_refl eq_refl eq_refl) as (Ht & _ & _).
  rewrite Ht. reflexivity.
Defined.

(** One event keeps the rotation when [customTrans] keeps the rotation
    proposed to it and the event is not the rotation setter. *)
Lemma dispatch_keeps_rotation
    (scaleStep : number) (customTrans : CustomTrans)
    (h : Hook) (dom : Dom) (ev : Event) :
  (forall prev v rect, rotate (customTrans prev v rect SCALE) = rotate v) ->
  rendered h ->
  isSetRotate ev = false ->
  st_rotate (dispatch scaleStep customTrans h dom ev) = st_rotate h.
Proof.
  intros Hct Hr Hev. unfold dispatch.
  destruct ev as [e | e | | e | v | v | v];
    cbn [handle render st_rotate]; try reflexivity; try discriminate Hev.
  - unfold handleMove. destruct (mousedownLock h); reflexivity.
  - unfold handleGesture.
    destruct (deltaY e =? 0); [reflexivity |].
    destruct (mousedownLock h); [reflexivity |].
    destruct (containerRef dom); [| reflexivity].
    destruct (childRef dom); [| reflexivity].
    cbn. rewrite Hct. cbn. now rewrite Hr.
Qed.

(** X6. Gestures never rotate: with a [customTrans] that returns the
    rotation proposed to it for [SCALE] (the default does), the rotation after
    any run of pointer and wheel events and of the translation and scale
    setters is the rotation before it.  Only [setRotate] changes it. *)
Theorem gestures_never_rotate
    (scaleStep : number) (customTrans : CustomTrans)
    (evs : list (Dom * Event)) (h : Hook) :
  (forall prev v rect, rotate (customTrans prev v rect SCALE) = rotate v) ->
  rendered h ->
  noEvent isSetRotate evs = true ->
  st_rotate (run scaleStep customTrans h evs) = st_rotate h.
Proof.
  intros Hct. revert h. induction evs as [| [dom ev] rest IH]; intros h Hr Hno.
  - reflexivity.
  - cbn [noEvent forallb snd] in Hno. apply andb_prop in Hno.
    destruct Hno as [Hev Hrest]. apply negb_true_iff in Hev.
    cbn [run]. rewrite IH by (try apply dispatch_rendered; exact Hrest).
    now apply dispatch_keeps_rotation.
Qed.

Lemma gestures_never_rotate_witness :
  st_rotate (run 0.1 defaultCustomTrans (render (setRotate initialHook 45))
               [(sampleDom, WheelEv (mkWheel (mkMouse 250 150) (-100)));
                (sampleDom, MouseDownEv (mkMouse 10 10));
                (sampleDom, MouseMoveEv (mkMouse 13 14));
                (sampleDom, MouseUpEv);
                (sampleDom, SetScaleEv 3)])
  = 45.
Proof.
  exact (gestures_never_rotate 0.1 defaultCustomTrans
           [(sampleDom, WheelEv (mkWheel (mkMouse 250 150) (-100)));
            (sampleDom, MouseDownEv (mkMouse 10 10));
            (sampleDom, MouseMoveEv (mkMouse 13 14));
            (sampleDom, MouseUpEv);
            (sampleDom, SetScaleEv 3)]
           (render (setRotate initialHook 45))
           (fun _ _ _ => eq_refl) eq_refl eq_refl).
Defined.

(** One processed wheel event under the default [customTrans]. *)
Lemma wheel_step_default
    (scaleStep : number) (h : Hook) (de : Dom * WheelEvent) :
  rendered h ->
  mousedownLock h = false ->
  processable de = true ->
  let h' := dispatch scaleStep defaultCustomTrans h (fst de) (WheelEv (snd de)) in
  st_scale h' = stepScale scaleStep (st_scale h) de
  /\ rendered h' /\ mousedownLock h' = false.
Proof.
  intros Hr Hl Hp h'. destruct de as [dom e]. cbn [fst snd] in *.
  unfold processable in Hp. cbn [fst snd] in Hp.
  apply andb_prop in Hp. destruct Hp as [Hz Hm]. apply negb_true_iff in Hz.
  destruct (containerRef dom) as [box |] eqn:Hc; [| discriminate Hm].
  destruct (childRef dom) as [child |] eqn:Hk; [| discriminate Hm].
  destruct (wheel_scale_default scaleStep h dom e box child Hr Hl Hz Hc Hk)
    as (Hs & Hr' & Hl').
  repeat split; try assumption.
  change (st_scale h') with (scale (stateOf h')). unfold h'. rewrite Hs.
  cbn [gestureProposal scale stateOf]. unfold stepScale, direc. cbn [snd].
  destruct (0 <? deltaY e).
  - now rewrite Binary64.mul_m1_l, Binary64.add_opp_r.
  - now rewrite Binary64.mul_1_l.
Qed.

(** X7. Zooming composes: under the default [customTrans], after a run of
    processed wheel events with no drag in progress the scale is the initial
    scale with one [scaleStep] taken away for each positive delta and added
    for each negative one, event after event in binary64 arithmetic. *)
Theorem wheel_run_steps_the_scale
    (scaleStep : number) (es : list (Dom * WheelEvent)) (h : Hook) :
  rendered h ->
  mousedownLock h = false ->
  forallb processable es = true ->
  st_scale (run scaleStep defaultCustomTrans h (wheels es))
  = fold_left (stepScale scaleStep) es (st_scale h).
Proof.
  revert h. induction es as [| de rest IH]; intros h Hr Hl Hp.
  - reflexivity.
  - cbn [forallb] in Hp. apply andb_prop in Hp. destruct Hp as [Hde Hrest].
    destruct (wheel_step_default scaleStep h de Hr Hl Hde) as (Hs & Hr' & Hl').
    cbn [wheels map run fold_left]. fold (wheels rest).
    now rewrite (IH _ Hr' Hl' Hrest), Hs.
Qed.

Lemma wheel_run_steps_the_scale_witness :
  st_scale (run 0.25 defaultCustomTrans initialHook
              (wheels [(sampleDom, mkWheel (mkMouse 250 150) (-100));
                       (sampleDom, mkWheel (mkMouse 250 150) (-100));
                       (sampleDom, mkWheel (mkMouse 30 40) 100)]))
  = 1.25.
Proof.
  rewrite (wheel_run_steps_the_scale 0.25
             [(sampleDom, mkWheel (mkMouse 250 150) (-100));
              (sampleDom, mkWheel (mkMouse 250 150) (-100));
              (sampleDom, mkWheel (mkMouse 30 40) 100)]
             initialHook eq_refl eq_refl eq_refl).
  reflexivity.
Defined.

(** X8. The handlers read the state through [transformConfigRef], which only
    a render brings up to date.  Two pointer moves of a drag handled with no
    render between them therefore do not add up: under the default
    [customTrans] the translation committed is the one before the first move
    plus the second delta alone; the first delta is lost. *)
Theorem moves_without_render_lose_a_delta
    (h : Hook) (dom1 dom2 : Dom) (e1 e2 : MouseEvent) :
  mousedownLock h = true ->
  rendered h ->
  st_transXY (handleMove defaultCustomTrans
                (handleMove defaultCustomTrans h dom1 e1) dom2 e2)
  = (fst (st_transXY h) + (clientX e2 - clientX e1),
     snd (st_transXY h) + (clientY e2 - clientY e1)).
Proof.
  intros Hl Hr.
  destruct (handleMove_dragging defaultCustomTrans h dom1 e1 Hl)
    as (_ & _ & _ & Hl1 & Hm1).
  destruct (handleMove_dragging defaultCustomTrans
              (handleMove defaultCustomTrans h dom1 e1) dom2 e2 Hl1)
    as (Ht & _).
  rewrite Ht, Hm1. cbn [defaultCustomTrans transXY fst snd].
  assert (Hc : transformConfigRef (handleMove defaultCustomTrans h dom1 e1)
               = transformConfigRef h).
  { unfold handleMove. now rewrite Hl. }
  now rewrite Hc, Hr.
Qed.

Lemma moves_without_render_lose_a_delta_witness :
  st_transXY (handleMove defaultCustomTrans
                (handleMove defaultCustomTrans draggingHook sampleDom
                   (mkMouse 13 14))
                sampleDom (mkMouse 20 9))
  = (7, -5).
Proof.
  rewrite (moves_without_render_lose_a_delta draggingHook sampleDom sampleDom
             (mkMouse 13 14) (mkMouse 20 9) eq_refl eq_refl).
  reflexivity.
Defined.

(** X9. The same for the wheel: of two processed wheel events handled with
    no render between them, only the second counts for the scale. *)
Theorem wheels_without_render_lose_a_step
    (scaleStep : number) (h : Hook) (dom1 dom2 : Dom) (e1 e2 : WheelEvent)
    (box1 child1 box2 child2 : DOMRect) :
  mousedownLock h = false ->
  rendered h ->
  (deltaY e1 =? 0) = false -> (deltaY e2 =? 0) = false ->
  containerRef dom1 = Some box1 -> childRef dom1 = Some child1 ->
  containerRef dom2 = Some box2 -> childRef dom2 = Some child2 ->
  st_scale (handleGesture scaleStep defaultCustomTrans
              (handleGesture scaleStep defaultCustomTrans h dom1 e1) dom2 e2)
  = stepScale scaleStep (st_scale h) (dom2, e2).
Proof.
  intros Hl Hr Hz1 Hz2 Hc1 Hk1 Hc2 Hk2.
  set (h1 := handleGesture scaleStep defaultCustomTrans h dom1 e1).
  assert (H1 : mousedownLock h1 = false /\ transformConfigRef h1 = transformConfigRef h).
  { unfold h1, handleGesture. rewrite Hz1, Hl, Hc1, Hk1. now cbn. }
  destruct H1 as [Hl1 Href].
  change (st_scale ?x) with (scale (stateOf x)).
  rewrite (handleGesture_processed scaleStep defaultCustomTrans h1 dom2 e2
             box2 child2 Hz2 Hl1 Hc2 Hk2).
  rewrite Href, Hr.
  cbn [defaultCustomTrans gestureProposal scale stateOf].
  unfold stepScale, direc. cbn [snd].
  destruct (0 <? deltaY e2).
  - now rewrite Binary64.mul_m1_l, Binary64.add_opp_r.
  - now rewrite Binary64.mul_1_l.
Qed.

Lemma wheels_without_render_lose_a_step_witness :
  st_scale (handleGesture 0.25 defaultCustomTrans
              (handleGesture 0.25 defaultCustomTrans initialHook sampleDom
                 (mkWheel (mkMouse 250 150) (-100)))
              sampleDom (mkWheel (mkMouse 250 150) (-100)))
  = 1.25.
Proof.
  rewrite (wheels_without_render_lose_a_step 0.25 initialHook sampleDom sampleDom
             (mkWheel (mkMouse 250 150) (-100)) (mkWheel (mkMouse 250 150) (-100))
             (mkRect 0 0 400 300) (mkRect 100 50 200 100)
             (mkRect 0 0 400 300) (mkRect 100 50 200 100)
             eq_refl eq_refl eq_refl eq_refl eq_refl eq_refl eq_refl eq_refl).
  reflexivity.
Defined.

(** ** Edges of the arithmetic *)

Lemma direc_finite (e : WheelEvent) : is_finite (direc e) = true.
Proof. unfold direc. now destruct (0 <? deltaY e). Qed.

(** The translation a processed wheel event commits under the default
    [customTrans], component by component. *)
Lemma wheel_translation_default
    (scaleStep : number) (h : Hook) (dom : Dom) (e : WheelEvent)
    (box child : DOMRect) :
  rendered h ->
  mousedownLock h = false ->
  (deltaY e =? 0) = false ->
  containerRef dom = Some box ->
  childRef dom = Some child ->
  let h' := dispatch scaleStep defaultCustomTrans h dom (WheelEv e) in
  fst (st_transXY h')
  = fst (st_transXY h)
    - (clientX (asMouseEvent e) - childCenterX child) * direc e
      / st_scale h * scaleStep
  /\ snd (st_transXY h')
     = snd (st_transXY h)
       - (clientY (asMouseEvent e) - childCenterY child) * direc e
         / st_scale h * scaleStep.
Proof.
  intros Hr Hl Hz Hc Hk h'.
  destruct (wheel_scale_default scaleStep h dom e box child Hr Hl Hz Hc Hk)
    as (Hs & _ & _).
  change (st_transXY h') with (transXY (stateOf h')). unfold h'. rewrite Hs.
  now cbn.
Qed.

(** X10. Nothing keeps the scale above zero: under the default
    [customTrans], a zoom-out wheel event at a scale equal to [scaleStep]
    commits the scale 0. *)
Theorem zoom_out_reaches_zero
    (scaleStep : number) (h : Hook) (dom : Dom) (e : WheelEvent)
    (box child : DOMRect) :
  rendered h ->
  mousedownLock h = false ->
  (0 <? deltaY e) = true ->
  containerRef dom = Some box ->
  childRef dom = Some child ->
  is_finite scaleStep = true ->
  st_scale h = scaleStep ->
  st_scale (dispatch scaleStep defaultCustomTrans h dom (WheelEv e)) = 0.
Proof.
  intros Hr Hl Hout Hc Hk Hf Hs.
  pose proof (Binary64.positive_not_zero _ Hout) as Hz.
  assert (Hp : processable (dom, e) = true).
  { unfold processable. cbn [fst snd]. now rewrite Hz, Hc, Hk. }
  destruct (wheel_step_default scaleStep h (dom, e) Hr Hl Hp) as (Hstep & _).
  cbn [fst snd] in Hstep. rewrite Hstep. unfold stepScale. cbn [snd].
  rewrite Hout, Hs. now apply Binary64Class.sub_diag.
Qed.

Lemma zoom_out_reaches_zero_witness :
  st_scale (dispatch 0.25 defaultCustomTrans (render (setScale initialHook 0.25))
              sampleDom (WheelEv (mkWheel (mkMouse 250 150) 100)))
  = 0.
Proof.
  exact (zoom_out_reaches_zero 0.25 (render (setScale initialHook 0.25))
           sampleDom (mkWheel (mkMouse 250 150) 100)
           (mkRect 0 0 400 300) (mkRect 100 50 200 100)
           eq_refl eq_refl eq_refl eq_refl eq_refl eq_refl eq_refl).
Defined.

(** X11. The division by the scale is not guarded: at scale zero, a
    processed wheel event whose pointer is not at the horizontal centre of
    the child commits an infinite horizontal translation (default
    [customTrans], positive [scaleStep], finite translation before). *)
Theorem wheel_at_scale_zero_gives_infinite_translation
    (scaleStep : number) (h : Hook) (dom : Dom) (e : WheelEvent)
    (box child : DOMRect) :
  rendered h ->
  mousedownLock h = false ->
  (deltaY e =? 0) = false ->
  containerRef dom = Some box ->
  childRef dom = Some child ->
  (st_scale h =? 0) = true ->
  (0 <? scaleStep) = true ->
  is_finite (fst (st_transXY h)) = true ->
  is_finite (clientX (asMouseEvent e) - childCenterX child) = true ->
  (clientX (asMouseEvent e) - childCenterX child =? 0) = false ->
  is_infinity
    (fst (st_transXY (dispatch scaleStep defaultCustomTrans h dom (WheelEv e))))
  = true.
Proof.
  intros Hr Hl Hz Hc Hk Hs Hstep Ht Hdf Hdz.
  destruct (wheel_translation_default scaleStep h dom e box child
              Hr Hl Hz Hc Hk) as [Hx _].
  rewrite Hx.
  apply Binary64Class.finite_sub_infinity; [exact Ht |].
  apply Binary64Class.infinity_mul_positive; [| exact Hstep].
  apply Binary64Class.div_by_zero; [| | exact Hs].
  - unfold direc. destruct (0 <? deltaY e).
    + rewrite Binary64Mul.mul_m1_r.
      now rewrite (proj1 (Binary64Class.opp_class _)).
    + now rewrite Binary64Mul.mul_1_r.
  - unfold direc. destruct (0 <? deltaY e).
    + rewrite Binary64Mul.mul_m1_r.
      now rewrite (proj2 (Binary64Class.opp_class _)).
    + now rewrite Binary64Mul.mul_1_r.
Qed.

Lemma wheel_at_scale_zero_gives_infinite_translation_witness :
  is_infinity
    (fst (st_transXY (dispatch 0.25 defaultCustomTrans
                        (render (setScale initialHook 0)) sampleDom
                        (WheelEv (mkWheel (mkMouse 250 150) 100)))))
  = true.
Proof.
  exact (wheel_at_scale_zero_gives_infinite_translation 0.25
           (render (setScale initialHook 0)) sampleDom
           (mkWheel (mkMouse 250 150) 100)
           (mkRect 0 0 400 300) (mkRect 100 50 200 100)
           eq_refl eq_refl eq_refl eq_refl eq_refl eq_refl eq_refl eq_refl
           eq_refl eq_refl).
Defined.

(** X12. Zooming with the pointer at the centre of the child does not move
    it: when the pointer position equals the centre [handleGesture] computes,
    a processed wheel event commits a translation equal ([===]) to the one
    before, under the default [customTrans], for a scale that is a number
    other than zero and a finite [scaleStep]. *)
Theorem zoom_at_centre_keeps_translation
    (scaleStep : number) (h : Hook) (dom : Dom) (e : WheelEvent)
    (box child : DOMRect) :
  rendered h ->
  mousedownLock h = false ->
  (deltaY e =? 0) = false ->
  containerRef dom = Some box ->
  childRef dom = Some child ->
  clientX (asMouseEvent e) = childCenterX child ->
  clientY (asMouseEvent e) = childCenterY child ->
  is_finite (childCenterX child) = true ->
  is_finite (childCenterY child) = true ->
  is_nan (st_scale h) = false ->
  (st_scale h =? 0) = false ->
  is_finite scaleStep = true ->
  is_nan (fst (st_transXY h)) = false ->
  is_nan (snd (st_transXY h)) = false ->
  let h' := dispatch scaleStep defaultCustomTrans h dom (WheelEv e) in
  (fst (st_transXY h') =? fst (st_transXY h)) = true
  /\ (snd (st_transXY h') =? snd (st_transXY h)) = true.
Proof.
  intros Hr Hl Hz Hc Hk Hx Hy Hfx Hfy Hsn Hsz Hstep Htx Hty h'.
  destruct (wheel_translation_default scaleStep h dom e box child
              Hr Hl Hz Hc Hk) as [Ex Ey].
  fold h' in Ex, Ey. rewrite Ex, Ey, Hx, Hy.
  rewrite (Binary64Class.sub_diag _ Hfx), (Binary64Class.sub_diag _ Hfy).
  assert (Hoff : (0 * direc e / st_scale h * scaleStep =? 0) = true).
  { apply Binary64Class.zero_mul; [| exact Hstep].
    apply Binary64Class.zero_div; [| exact Hsn | exact Hsz].
    apply Binary64Class.zero_mul; [reflexivity | apply direc_finite]. }
  split; now apply Binary64Class.sub_zero.
Qed.

Lemma zoom_at_centre_keeps_translation_witness :
  (fst (st_transXY (dispatch 0.1 defaultCustomTrans
                      (render (setTransXY initialHook (12.5, -3))) sampleDom
                      (WheelEv (mkWheel (mkMouse 200 100) (-100)))))
   =? 12.5) = true.
Proof.
  destruct (zoom_at_centre_keeps_translation 0.1
              (render (setTransXY initialHook (12.5, -3))) sampleDom
              (mkWheel (mkMouse 200 100) (-100))
              (mkRect 0 0 400 300) (mkRect 100 50 200 100)
              eq_refl eq_refl eq_refl eq_refl eq_refl eq_refl eq_refl eq_refl
              eq_refl eq_refl eq_refl eq_refl eq_refl eq_refl) as [Hx _].
  exact Hx.
Defined.
